(** * MIDIgen: the browser client and the generation backend it calls

    The repository's program is the page component [src/app/page.tsx]: a
    select box over a fixed instrument list and a click handler that fetches
    [/generate-midi?instrument=...] and saves the answer as a [.mid] file.
    Module [Client] embeds that component: the React state as a record, the
    asynchronous handler in a small monad with exceptions, suspension and an
    effect trace, and the browser and server as an explicit environment.

    The generation backend behind the endpoint is not part of the sources.
    Module [Backend] models the pieces the specification describes in words
    (registry, pattern generator), every definition marked as such. *)

From Stdlib Require Import String Ascii List NArith ZArith QArith Bool Lia.
From Stdlib Require Import DecimalString Floats.
Import ListNotations.
Open Scope string_scope.

Set Warnings "-register-all".

(* ===================================================================== *)
(** ** JavaScript values, as far as the handler looks at them             *)
(* ===================================================================== *)

Module JS.

(** What [JSON.parse] can return (plus [undefined], the result of reading a
    property that is not there). Numbers are IEEE binary64, as in the
    language. An object is the list of its own properties. *)
Inductive jsval : Type :=
| VUndefined
| VNull
| VBool (b : bool)
| VNum (x : float)
| VStr (s : string)
| VArr (elems : list jsval)
| VObj (props : list (string * jsval)).

(** ToBoolean: [undefined], [null], [false], [0], [-0], [NaN] and the empty
    string are falsy, everything else is truthy. *)
Definition truthy_string (s : string) : bool :=
  match s with EmptyString => false | String _ _ => true end.

Definition truthy (v : jsval) : bool :=
  match v with
  | VUndefined | VNull => false
  | VBool b => b
  | VNum x => negb (PrimFloat.eqb x 0%float || PrimFloat.is_nan x)
  | VStr s => truthy_string s
  | VArr _ | VObj _ => true
  end.

(** [a || b] on values: [a] when it is truthy, [b] otherwise. *)
Definition or_else (a b : jsval) : jsval := if truthy a then a else b.

(** [s1 || s2] on strings. *)
Definition or_else_string (a b : string) : string :=
  if truthy_string a then a else b.

(** An exception object. The handler reads nothing but [err.message]; the
    exceptions of [fetch], [Response.json], [Response.blob] and the DOM are
    [Error] or [DOMException] instances, whose message is a string. *)
Record exn : Type := Error { message : string }.

Fixpoint own_property (props : list (string * jsval)) (key : string) : jsval :=
  match props with
  | [] => VUndefined
  | (k, v) :: rest => if String.eqb k key then v else own_property rest key
  end.

(** [v.key] for a key that no built-in prototype defines (the handler reads
    [detail] only): a TypeError on [undefined] and [null], the own property
    on an object, [undefined] on every other value. The text of the
    TypeError is the engine's. *)
Definition get_property (type_error : exn) (v : jsval) (key : string)
  : exn + jsval :=
  match v with
  | VUndefined | VNull => inl type_error
  | VObj props => inr (own_property props key)
  | VBool _ | VNum _ | VStr _ | VArr _ => inr VUndefined
  end.

(** [String(n)] for a non-negative integer, e.g. an HTTP status. *)
Definition string_of_N (n : N) : string :=
  NilZero.string_of_uint (N.to_uint n).

End JS.
Import JS.

(* ===================================================================== *)
(** ** The client: [src/app/page.tsx]                                     *)
(* ===================================================================== *)

Module Client.

(** [const VALID_INSTRUMENTS = [...]] *)
Definition VALID_INSTRUMENTS : list string :=
  [ "lead"; "pluck"; "keys"; "pad"; "drums";
    "kick"; "snare"; "closed_hat"; "open_hat"; "clap" ].

(** [const API_BASE_URL = "http://127.0.0.1:8000"] *)
Definition API_BASE_URL : string := "http://127.0.0.1:8000".

(** The three [useState] cells of [HomePage]. *)
Record AppState : Type := mkAppState {
  selectedInstrument : string;
  isLoading : bool;
  error : option string          (* [string | null] *)
}.

(** [useState('lead')], [useState(false)], [useState(null)] *)
Definition initial_state : AppState :=
  {| selectedInstrument := "lead"; isLoading := false; error := None |}.

(** *** The environment of one handler run *)

(** A promise the handler awaits: it never settles, rejects or resolves. *)
Inductive settled (A : Type) : Type :=
| Pending
| Rejected (e : exn)
| Resolved (a : A).
Arguments Pending {A}.
Arguments Rejected {A} e.
Arguments Resolved {A} a.

Record Blob : Type := mkBlob { blob_bytes : list Byte.byte; blob_type : string }.

(** A [Response] as the handler uses it: [ok], [status], and what the
    promises of [json()] and [blob()] do. *)
Record Response : Type := mkResponse {
  ok : bool;
  status : N;
  json : settled jsval;
  blob : settled Blob
}.

(** The synchronous browser calls of the success path. *)
Inductive dom_call : Type :=
| CreateObjectURL | CreateElement | AppendChild | Click | Remove
| RevokeObjectURL.

(** Everything outside the component that a run depends on: the server and
    network ([fetch]), the browser (the object URL it hands out, a DOM call
    that throws) and the engine (the text of its TypeError, [ToString] of a
    value that is not a string, which may itself throw). *)
Record Env : Type := mkEnv {
  fetch : string -> settled Response;
  object_url : Blob -> string;
  dom_throws : dom_call -> option exn;
  type_error : exn;
  ToString_other : jsval -> exn + string
}.

(** The temporary [<a>] element. *)
Record Anchor : Type := mkAnchor { href : string; download : string }.

(** What a run does to the outside world, in order. Clicking an anchor that
    has a [download] attribute saves [href]'s content under that name. *)
Inductive effect : Type :=
| EFetch (url : string)
| ECreateObjectURL (b : Blob)
| EAppendChild (a : Anchor)
| EClick (a : Anchor)
| ERemove (a : Anchor)
| ERevokeObjectURL (url : string)
| EConsoleError (label : string) (err : exn).

Record World : Type := mkWorld { app : AppState; trace : list effect }.

(** *** The monad of the handler: state, exceptions, suspension *)

Inductive outcome (A : Type) : Type :=
| Done (a : A)
| Threw (e : exn)
| Suspended.
Arguments Done {A} a.
Arguments Threw {A} e.
Arguments Suspended {A}.

Definition M (A : Type) : Type := World -> outcome A * World.

Definition ret {A} (a : A) : M A := fun w => (Done a, w).

Definition bind {A B} (m : M A) (k : A -> M B) : M B :=
  fun w =>
    match m w with
    | (Done a, w1) => k a w1
    | (Threw e, w1) => (Threw e, w1)
    | (Suspended, w1) => (Suspended, w1)
    end.

Declare Scope js_scope.
Delimit Scope js_scope with js.
Notation "x <- m ;; k" := (bind m (fun x => k))
  (at level 61, m at next level, right associativity) : js_scope.
Notation "m ;; k" := (bind m (fun _ => k))
  (at level 61, right associativity) : js_scope.
Open Scope js_scope.

Definition throw {A} (e : exn) : M A := fun w => (Threw e, w).

(** [await p] *)
Definition await {A} (p : settled A) : M A :=
  fun w =>
    match p with
    | Pending => (Suspended, w)
    | Rejected e => (Threw e, w)
    | Resolved a => (Done a, w)
    end.

Definition lift_result {A} (r : exn + A) : M A :=
  match r with inl e => throw e | inr a => ret a end.

Definition emit (e : effect) : M unit :=
  fun w => (Done tt, {| app := app w; trace := trace w ++ [e] |}).

Definition modify (f : AppState -> AppState) : M unit :=
  fun w => (Done tt, {| app := f (app w); trace := trace w |}).

(** [try { body } catch (err) { handler } finally { final }]: the handler
    runs when the body throws, and [final] runs whenever control leaves the
    statement; a part that is suspended for ever leaves nothing to run. *)
Definition try_catch_finally {A} (body : M A) (handler : exn -> M A)
  (final : M unit) : M A :=
  fun w =>
    let after (r : outcome A * World) : outcome A * World :=
      match r with
      | (Suspended, w1) => (Suspended, w1)
      | (Done a, w1) =>
          match final w1 with
          | (Done _, w2) => (Done a, w2)
          | (Threw e, w2) => (Threw e, w2)
          | (Suspended, w2) => (Suspended, w2)
          end
      | (Threw e, w1) =>
          match final w1 with
          | (Done _, w2) => (Threw e, w2)
          | (Threw e', w2) => (Threw e', w2)
          | (Suspended, w2) => (Suspended, w2)
          end
      end in
    match body w with
    | (Threw e, w1) => after (handler e w1)
    | r => after r
    end.

(** The state setters. *)
Definition setSelectedInstrument (v : string) : M unit :=
  modify (fun s => {| selectedInstrument := v;
                      isLoading := isLoading s; error := error s |}).

Definition setIsLoading (b : bool) : M unit :=
  modify (fun s => {| selectedInstrument := selectedInstrument s;
                      isLoading := b; error := error s |}).

Definition setError (e : option string) : M unit :=
  modify (fun s => {| selectedInstrument := selectedInstrument s;
                      isLoading := isLoading s; error := e |}).

(** A synchronous browser call: it throws when the environment says so and
    is recorded otherwise. *)
Definition dom (env : Env) (c : dom_call) (e : list effect) : M unit :=
  fun w =>
    match dom_throws env c with
    | Some x => (Threw x, w)
    | None => (Done tt, {| app := app w; trace := trace w ++ e |})
    end.

(** [new Error(v)]: the message is [ToString(v)]. *)
Definition new_Error (env : Env) (v : jsval) : exn + exn :=
  match v with
  | VStr s => inr (Error s)
  | _ => match ToString_other env v with
         | inl e => inl e
         | inr s => inr (Error s)
         end
  end.

(** The request URL, a template literal. *)
Definition request_url (instrument : string) : string :=
  API_BASE_URL ++ "/generate-midi?instrument=" ++ instrument.

(** The name given to the saved file, a template literal. *)
Definition download_name (instrument : string) : string :=
  instrument ++ "_pattern.mid".

Arguments request_url : simpl never.
Arguments download_name : simpl never.

(** The [try] block of [handleGenerateMidi]; [selectedInstrument] is the
    value the closure captured at the render the click belongs to. *)
Definition try_block (env : Env) (selectedInstrument : string) : M unit :=
  emit (EFetch (request_url selectedInstrument)) ;;
  response <- await (fetch env (request_url selectedInstrument)) ;;
  (if negb (ok response) then
     errorData <- await (json response) ;;
     detail <- lift_result (get_property (type_error env) errorData "detail") ;;
     err <- lift_result
              (new_Error env
                 (or_else detail
                    (VStr ("HTTP error! Status: "
                           ++ string_of_N (status response))))) ;;
     throw err
   else ret tt) ;;
  midiBlob <- await (blob response) ;;
  let url := object_url env midiBlob in
  dom env CreateObjectURL [ECreateObjectURL midiBlob] ;;
  dom env CreateElement [] ;;
  let a := {| href := url; download := download_name selectedInstrument |} in
  dom env AppendChild [EAppendChild a] ;;
  dom env Click [EClick a] ;;
  dom env Remove [ERemove a] ;;
  dom env RevokeObjectURL [ERevokeObjectURL url].

(** The [catch (err)] block. *)
Definition catch_block (err : exn) : M unit :=
  emit (EConsoleError "Failed to generate MIDI:" err) ;;
  setError (Some (or_else_string (message err) "An unknown error occurred.")).

(** [const handleGenerateMidi = async () => { ... }] *)
Definition handleGenerateMidi (env : Env) (selectedInstrument : string)
  : M unit :=
  setIsLoading true ;;
  setError None ;;
  try_catch_finally
    (try_block env selectedInstrument)
    catch_block
    (setIsLoading false).

(** *** What [HomePage] renders *)

(** [c.toUpperCase()] on an ASCII letter; the instrument names are ASCII. *)
Definition toUpperCase_ascii (c : ascii) : ascii :=
  let n := nat_of_ascii c in
  if andb (Nat.leb 97 n) (Nat.leb n 122) then ascii_of_nat (n - 32) else c.

(** [inst.charAt(0).toUpperCase() + inst.slice(1)] *)
Definition option_label (inst : string) : string :=
  match inst with
  | EmptyString => EmptyString
  | String c rest => String (toUpperCase_ascii c) rest
  end.

(** [<option key={inst} value={inst}>label</option>] *)
Record OptionElement : Type := mkOption {
  option_key : string;
  option_value : string;
  option_text : string
}.

Record View : Type := mkView {
  select_value : string;
  select_options : list OptionElement;
  button_disabled : bool;
  button_text : string;
  error_paragraph : option string   (* the text of the red [<p>], if any *)
}.

Definition render (st : AppState) : View :=
  {| select_value := selectedInstrument st;
     select_options :=
       map (fun inst => {| option_key := inst; option_value := inst;
                           option_text := option_label inst |})
           VALID_INSTRUMENTS;
     button_disabled := isLoading st;
     button_text := if isLoading st then "Generating..." else "Generate MIDI";
     error_paragraph :=
       match error st with
       | Some e => if truthy_string e then Some ("Error: " ++ e) else None
       | None => None
       end |}.

(** *** The component as a transition system *)

(** The application state after running a handler from state [st]. *)
Definition state_after (m : M unit) (st : AppState) : AppState :=
  app (snd (m {| app := st; trace := [] |})).

(** The requests a handler run sends. *)
Fixpoint requests (t : list effect) : list string :=
  match t with
  | [] => []
  | EFetch url :: rest => url :: requests rest
  | _ :: rest => requests rest
  end.

(** The files a handler run saves: a click on an anchor saves [href] under
    the name [download]. *)
Fixpoint saved_files (t : list effect) : list (string * string) :=
  match t with
  | [] => []
  | EClick a :: rest => (download a, href a) :: saved_files rest
  | _ :: rest => saved_files rest
  end.

(** One user action: picking one of the rendered options fires [onChange]
    with that option's value; a click on the button, unless it is disabled,
    runs [handleGenerateMidi] against some environment. A handler run is
    taken as one step: it never writes [selectedInstrument], the only cell
    another event can write in between. *)
Inductive ui_step : AppState -> AppState -> Prop :=
| ui_change (st : AppState) (o : OptionElement) :
    In o (select_options (render st)) ->
    ui_step st (state_after (setSelectedInstrument (option_value o)) st)
| ui_click (st : AppState) (env : Env) :
    button_disabled (render st) = false ->
    ui_step st (state_after (handleGenerateMidi env (selectedInstrument st)) st).

Inductive reachable : AppState -> Prop :=
| reach_initial : reachable initial_state
| reach_step (st st' : AppState) :
    reachable st -> ui_step st st' -> reachable st'.

(** The instrument named in a request for [url], if [url] has the shape
    [API_BASE_URL/generate-midi?instrument=NAME]. *)
Definition request_prefix : string := API_BASE_URL ++ "/generate-midi?instrument=".

Fixpoint strip_prefix (p s : string) : option string :=
  match p, s with
  | EmptyString, _ => Some s
  | String a p', String b s' => if Ascii.eqb a b then strip_prefix p' s' else None
  | String _ _, EmptyString => None
  end.

Definition requested_instrument (url : string) : option string :=
  strip_prefix request_prefix url.

Definition dom_calls : list dom_call :=
  [CreateObjectURL; CreateElement; AppendChild; Click; Remove; RevokeObjectURL].

(** The run takes the success path: [fetch] resolves with an [ok]
    response, its body is read as a blob, and no browser call throws. *)
Definition request_succeeds (env : Env) (instrument : string) : bool :=
  match fetch env (request_url instrument) with
  | Resolved response =>
      ok response
      && match blob response with Resolved _ => true | _ => false end
      && forallb (fun c => match dom_throws env c with
                           | None => true | Some _ => false end) dom_calls
  | Pending | Rejected _ => false
  end.

(** A promise the run awaits never settles. *)
Definition awaits_for_ever (env : Env) (sel : string) : bool :=
  match fetch env (request_url sel) with
  | Pending => true
  | Rejected _ => false
  | Resolved r =>
      if ok r
      then match blob r with Pending => true | _ => false end
      else match json r with Pending => true | _ => false end
  end.


(** The exceptions a handler run reports with [console.error]. *)
Fixpoint console_errors (t : list effect) : list exn :=
  match t with
  | [] => []
  | EConsoleError _ err :: rest => err :: console_errors rest
  | _ :: rest => console_errors rest
  end.

(** The object URLs a handler run revokes. *)
Fixpoint revoked_urls (t : list effect) : list string :=
  match t with
  | [] => []
  | ERevokeObjectURL url :: rest => url :: revoked_urls rest
  | _ :: rest => revoked_urls rest
  end.

(** The blobs a handler run creates an object URL for. *)
Fixpoint created_urls (t : list effect) : list Blob :=
  match t with
  | [] => []
  | ECreateObjectURL b :: rest => b :: created_urls rest
  | _ :: rest => created_urls rest
  end.

(** The string starts with one of the ASCII letters [a] to [z]. *)
Definition starts_lowercase (s : string) : bool :=
  match s with
  | EmptyString => false
  | String c _ =>
      andb (Nat.leb 97 (nat_of_ascii c)) (Nat.leb (nat_of_ascii c) 122)
  end.

(** The world a run ends in when the body of the [try] block throws [e]
    before any browser call: the request went out, [e] was reported and its
    message became the error. *)
Definition failed_world (w : World) (sel : string) (e : exn) : World :=
  {| app := {| selectedInstrument := selectedInstrument (app w);
               isLoading := false;
               error := Some (or_else_string (message e)
                                             "An unknown error occurred.") |};
     trace := (trace w ++ [ EFetch (request_url sel);
                            EConsoleError "Failed to generate MIDI:" e ])%list |}.

(** *** Sample environments *)

Definition quiet_browser (f : string -> settled Response) : Env :=
  {| fetch := f;
     object_url := fun _ => "blob:http://localhost:3000/0";
     dom_throws := fun _ => None;
     type_error := Error "Cannot read properties of null (reading 'detail')";
     ToString_other := fun _ => inr "[object Object]" |}.

Definition midi_response : Response :=
  {| ok := true; status := 200;
     json := Rejected (Error "Unexpected token 'M'");
     blob := Resolved {| blob_bytes := [Byte.x4d; Byte.x54; Byte.x68; Byte.x64];
                         blob_type := "audio/midi" |} |}.

Definition error_response (code : N) (d : string) : Response :=
  {| ok := false; status := code;
     json := Resolved (VObj [("detail", VStr d)]);
     blob := Pending |}.

Definition env_success : Env := quiet_browser (fun _ => Resolved midi_response).

Definition env_detail (code : N) (d : string) : Env :=
  quiet_browser (fun _ => Resolved (error_response code d)).

Definition env_offline : Env :=
  quiet_browser (fun _ => Rejected (Error "Failed to fetch")).

(** A failure response with the given JSON body. *)
Definition env_body (code : N) (body : jsval) : Env :=
  quiet_browser (fun _ =>
    Resolved {| ok := false; status := code;
                json := Resolved body; blob := Pending |}).

(** A server that never answers. *)
Definition env_hanging : Env := quiet_browser (fun _ => Pending).

End Client.

(* ===================================================================== *)
(** ** The endpoint, from the specification                               *)
(* ===================================================================== *)

Module Endpoint.

(** The fixed instrument set the specification advertises for
    [GET /generate-midi?instrument={name}]: lead, pluck, keys, pad, drums,
    kick, snare, closed_hat, open_hat, clap. *)
Definition advertised_instruments : list string :=
  [ "lead"; "pluck"; "keys"; "pad"; "drums";
    "kick"; "snare"; "closed_hat"; "open_hat"; "clap" ].

End Endpoint.

(* ===================================================================== *)
(** ** The generation backend, from the specification                     *)
(* ===================================================================== *)

Module Backend.
Import Endpoint.

(** *** Data model *)

(** Modelled from the spec: the InstrumentProfile record of the data model;
    no source file declares it. Numeric fields are rationals. *)
Record InstrumentProfile : Type := mkProfile {
  name : string;
  model_id : string;
  decoding_params : list (string * Q);
  midi_program : Z;
  channel : Z;
  default_length_steps : Z;
  tempo_bpm : Q
}.

(** Modelled from the spec: the ranges the data model gives the fields of a
    profile: [midi_program] in [0,127], [channel] in [0,15],
    [default_length_steps > 0], [tempo_bpm > 0]. *)
Definition profile_in_range (p : InstrumentProfile) : Prop :=
  (0 <= midi_program p <= 127)%Z
  /\ (0 <= channel p <= 15)%Z
  /\ (0 < default_length_steps p)%Z
  /\ (0 < tempo_bpm p)%Q.

(** Modelled from the spec: a Note of the data model. *)
Record Note : Type := mkNote {
  pitch : Z;
  velocity : Z;
  start_time : Q;
  end_time : Q
}.

(** Modelled from the spec: a NoteSequence of the data model: the ordered
    notes plus tempo and total duration. *)
Record NoteSequence : Type := mkNoteSequence {
  notes : list Note;
  tempo : Q;
  total_duration : Q
}.

(** Modelled from the spec: the error taxonomy of the backend. *)
Inductive error : Type :=
| UnknownInstrument
| ModelLoadError
| GenerationError
| EncodingError.

(** *** Instrument Registry *)

Section Registry.

(** Modelled from the spec: the static table the registry is created from
    at process start. The specification names its keys and the ranges of
    its fields, not its entries. *)
Variable table : list InstrumentProfile.

(** Modelled from the spec: [resolve(name)] returns the profile whose key
    is [name], by case-sensitive exact match, or fails with
    [UnknownInstrument]; it reads the table and changes nothing. *)
Definition resolve (n : string) : error + InstrumentProfile :=
  match find (fun p => String.eqb (name p) n) table with
  | Some p => inr p
  | None => inl UnknownInstrument
  end.

End Registry.

(** *** Pattern Generator *)

(** Modelled from the spec: a GenerativeModel, identified by [model_id],
    with its one capability, sample-and-decode(params, seed), whose output
    may lie outside the bounds of the data model. *)
Record GenerativeModel : Type := mkModel {
  id : string;
  sample_and_decode : list (string * Q) -> N -> NoteSequence
}.

Section PatternGenerator.

(** Modelled from the spec: the process-wide random source a seed is drawn
    from when the caller supplies none. *)
Variable RandomSource : Type.
Variable draw : RandomSource -> N * RandomSource.

(** Modelled from the spec: what makes a decoded sequence malformed (the
    specification gives examples only), and the deterministic
    post-processing of step 3 (clamping, clipping, quantizing). *)
Variable malformed : NoteSequence -> bool.
Variable postprocess : InstrumentProfile -> NoteSequence -> NoteSequence.

(** Modelled from the spec: step 1 of [generate]: a seed the caller
    supplies is used verbatim, otherwise one is drawn. *)
Definition derive_seed (seed : option N) (rs : RandomSource) : N * RandomSource :=
  match seed with
  | Some s => (s, rs)
  | None => draw rs
  end.

(** Modelled from the spec: a sequence with zero notes. *)
Definition is_empty (s : NoteSequence) : bool :=
  match notes s with [] => true | _ :: _ => false end.

(** Modelled from the spec: [generate(profile, seed?)] on a model instance:
    derive the seed, run sample-and-decode with the profile's decoding
    parameters, fail with [GenerationError] when the model returns an empty
    or malformed sequence, post-process otherwise. *)
Definition generate (m : GenerativeModel) (profile : InstrumentProfile)
  (seed : option N) (rs : RandomSource)
  : (error + NoteSequence) * RandomSource :=
  let (s, rs') := derive_seed seed rs in
  let raw := sample_and_decode m (decoding_params profile) s in
  if is_empty raw || malformed raw
  then (inl GenerationError, rs')
  else (inr (postprocess profile raw), rs').

End PatternGenerator.

(** *** Sample data *)

(** A table to run [resolve] on; the entries are examples. *)
Definition sample_profile (n : string) (program chan : Z) : InstrumentProfile :=
  {| name := n; model_id := "shared_v1"; decoding_params := [("temperature", 1 # 2)];
     midi_program := program; channel := chan;
     default_length_steps := 32; tempo_bpm := 120 # 1 |}.

Definition sample_table : list InstrumentProfile :=
  [ sample_profile "lead" 80 0;  sample_profile "pluck" 45 1;
    sample_profile "keys" 4 2;   sample_profile "pad" 88 3;
    sample_profile "drums" 0 9;  sample_profile "kick" 0 9;
    sample_profile "snare" 0 9;  sample_profile "closed_hat" 0 9;
    sample_profile "open_hat" 0 9; sample_profile "clap" 0 9 ].

(** A model whose one note has the seed for its pitch. *)
Definition echo_model : GenerativeModel :=
  {| id := "shared_v1";
     sample_and_decode := fun _ seed =>
       {| notes := [ {| pitch := Z.of_N seed; velocity := 100;
                        start_time := 0; end_time := 1 # 4 |} ];
          tempo := 120 # 1; total_duration := 1 # 4 |} |}.

(** A random source that counts. *)
Definition counter_draw (n : N) : N * N := (n, N.succ n).

(** A model that decodes every seed into silence. *)
Definition silent_model : GenerativeModel :=
  {| id := "shared_v1";
     sample_and_decode := fun _ _ =>
       {| notes := []; tempo := 120 # 1; total_duration := 0 |} |}.

End Backend.

(* ===================================================================== *)
(** ** Facts about the client                                             *)
(* ===================================================================== *)

Module ClientFacts.
Import Client Endpoint.

(** *** The instrument list *)

Lemma valid_instruments_advertised (s : string) :
  In s VALID_INSTRUMENTS <-> In s advertised_instruments.
Proof. unfold VALID_INSTRUMENTS, advertised_instruments. tauto. Qed.

Lemma option_values (st : AppState) :
  map option_value (select_options (render st)) = VALID_INSTRUMENTS.
Proof. reflexivity. Qed.

(** *** Running the handler *)

Ltac unfold_monad :=
  unfold handleGenerateMidi, try_catch_finally, try_block, catch_block,
    setIsLoading, setError, setSelectedInstrument, dom, emit, modify,
    lift_result, await, throw, bind, ret.

(** Case analysis on the next thing the run depends on: the innermost
    scrutinee that is not itself a case analysis. *)
Ltac next_case :=
  match goal with
  | |- context [match ?x with _ => _ end] =>
      lazymatch x with
      | context [match _ with _ => _ end] => fail
      | _ => destruct x eqn:?; cbn
      end
  end.

Ltac run := unfold_monad; cbn; repeat next_case.

(** The [try] block touches no state cell: it only talks to the outside. *)
Lemma try_block_app (env : Env) (sel : string) (w : World) :
  app (snd (try_block env sel w)) = app w.
Proof. run; reflexivity. Qed.

(** The handler writes [isLoading] and [error] only. *)
Lemma handler_keeps_selection (env : Env) (sel : string) (w : World) :
  selectedInstrument (app (snd (handleGenerateMidi env sel w)))
  = selectedInstrument (app w).
Proof. run; reflexivity. Qed.

Lemma requests_app (t u : list effect) :
  requests (t ++ u) = (requests t ++ requests u)%list.
Proof.
  induction t as [|e t IH]; [reflexivity|].
  destruct e; cbn; rewrite IH; reflexivity.
Qed.

Lemma saved_files_app (t u : list effect) :
  saved_files (t ++ u) = (saved_files t ++ saved_files u)%list.
Proof.
  induction t as [|e t IH]; [reflexivity|].
  destruct e; cbn; rewrite IH; reflexivity.
Qed.

Ltac flatten_trace :=
  repeat rewrite requests_app; repeat rewrite saved_files_app; cbn;
  repeat rewrite app_nil_r; repeat rewrite <- app_assoc.

(** Every run sends exactly one request, for the captured instrument. *)
Lemma handler_requests (env : Env) (sel : string) (w : World) :
  requests (trace (snd (handleGenerateMidi env sel w)))
  = (requests (trace w) ++ [request_url sel])%list.
Proof. run; flatten_trace; reflexivity. Qed.

Lemma strip_prefix_app (p s : string) : strip_prefix p (p ++ s) = Some s.
Proof.
  induction p as [|c p IH]; cbn; [destruct s; reflexivity|].
  rewrite Ascii.eqb_refl. exact IH.
Qed.

Lemma requested_instrument_url (s : string) :
  requested_instrument (request_url s) = Some s.
Proof.
  unfold requested_instrument, request_url, request_prefix.
  change (strip_prefix (API_BASE_URL ++ "/generate-midi?instrument=")
            ((API_BASE_URL ++ "/generate-midi?instrument=") ++ s) = Some s).
  apply strip_prefix_app.
Qed.

(** *** The selection stays inside the list *)

Lemma change_selects (st : AppState) (v : string) :
  selectedInstrument (state_after (setSelectedInstrument v) st) = v.
Proof. reflexivity. Qed.

Lemma reachable_selection (st : AppState) :
  reachable st -> In (selectedInstrument st) VALID_INSTRUMENTS.
Proof.
  induction 1 as [|st st' Hreach IH Hstep].
  - cbn. tauto.
  - destruct Hstep as [st o Ho | st env Hen].
    + rewrite change_selects, <- (option_values st).
      apply in_map. exact Ho.
    + unfold state_after. rewrite handler_keeps_selection. exact IH.
Qed.

Lemma every_instrument_selectable (s : string) :
  In s VALID_INSTRUMENTS ->
  reachable (state_after (setSelectedInstrument s) initial_state).
Proof.
  intros Hs.
  rewrite <- (option_values initial_state) in Hs.
  apply in_map_iff in Hs. destruct Hs as [o [Hv Ho]]. subst s.
  eapply reach_step; [apply reach_initial|].
  apply ui_change. exact Ho.
Qed.

(** C1. The instrument names of the client are exactly the advertised ones:
    the list [VALID_INSTRUMENTS] and the advertised set have the same
    members; the values of the options the page presents are that list; a
    request sent from any state the page can reach names an advertised
    instrument; and every advertised instrument can be selected, after which
    a click on the button requests it. *)
Theorem client_instruments_are_the_advertised_set :
  (forall s, In s VALID_INSTRUMENTS <-> In s advertised_instruments)
  /\ (forall st, map option_value (select_options (render st)) = VALID_INSTRUMENTS)
  /\ (forall st env url,
        reachable st ->
        In url (requests (trace (snd (handleGenerateMidi env (selectedInstrument st)
                                        {| app := st; trace := [] |})))) ->
        exists s, url = API_BASE_URL ++ "/generate-midi?instrument=" ++ s
                  /\ requested_instrument url = Some s
                  /\ In s advertised_instruments)
  /\ (forall s env,
        In s advertised_instruments ->
        exists st, reachable st
                   /\ selectedInstrument st = s
                   /\ requests (trace (snd (handleGenerateMidi env (selectedInstrument st)
                                              {| app := st; trace := [] |})))
                      = [API_BASE_URL ++ "/generate-midi?instrument=" ++ s]).
Proof.
  split; [exact valid_instruments_advertised|].
  split; [exact option_values|].
  split.
  - intros st env url Hreach Hin.
    rewrite handler_requests in Hin. cbn in Hin.
    destruct Hin as [<-|[]].
    exists (selectedInstrument st). split; [reflexivity|].
    split; [apply requested_instrument_url|].
    apply valid_instruments_advertised, reachable_selection, Hreach.
  - intros s env Hs.
    apply valid_instruments_advertised in Hs.
    exists (state_after (setSelectedInstrument s) initial_state).
    split; [apply every_instrument_selectable, Hs|].
    split; [reflexivity|].
    rewrite handler_requests. reflexivity.
Qed.

Lemma client_instruments_witness :
  exists st, reachable st /\ selectedInstrument st = "closed_hat"
             /\ requests (trace (snd (handleGenerateMidi env_success (selectedInstrument st)
                                        {| app := st; trace := [] |})))
                = ["http://127.0.0.1:8000/generate-midi?instrument=closed_hat"].
Proof.
  apply (proj2 (proj2 (proj2 client_instruments_are_the_advertised_set))
           "closed_hat" env_success).
  cbn. tauto.
Defined.

(** *** The success path *)

Lemma dom_calls_quiet (env : Env) :
  (forall c, dom_throws env c = None) <->
  forallb (fun c => match dom_throws env c with
                    | None => true | Some _ => false end) dom_calls = true.
Proof.
  split.
  - intros H. cbn. rewrite !H. reflexivity.
  - cbn. intros H c.
    destruct (dom_throws env CreateObjectURL) eqn:E1; [discriminate|].
    destruct (dom_throws env CreateElement) eqn:E2; [discriminate|].
    destruct (dom_throws env AppendChild) eqn:E3; [discriminate|].
    destruct (dom_throws env Click) eqn:E4; [discriminate|].
    destruct (dom_throws env Remove) eqn:E5; [discriminate|].
    destruct (dom_throws env RevokeObjectURL) eqn:E6; [discriminate|].
    destruct c; assumption.
Qed.

Lemma request_succeeds_inv (env : Env) (sel : string) :
  request_succeeds env sel = true ->
  exists r b, fetch env (request_url sel) = Resolved r
              /\ ok r = true /\ blob r = Resolved b
              /\ (forall c, dom_throws env c = None).
Proof.
  unfold request_succeeds.
  destruct (fetch env (request_url sel)) as [|e|r]; try discriminate.
  intros H. apply andb_prop in H. destruct H as [H Hdom].
  apply andb_prop in H. destruct H as [Hok Hblob].
  destruct (blob r) as [|e|b] eqn:Eb; try discriminate.
  exists r, b. repeat split; try assumption.
  apply dom_calls_quiet. exact Hdom.
Qed.

(** The whole run on the success path: final state and effects. *)
Lemma success_run (env : Env) (sel : string) (w : World) (r : Response) (b : Blob) :
  fetch env (request_url sel) = Resolved r ->
  ok r = true ->
  blob r = Resolved b ->
  (forall c, dom_throws env c = None) ->
  let a := {| href := object_url env b; download := download_name sel |} in
  handleGenerateMidi env sel w
  = (Done tt,
     {| app := {| selectedInstrument := selectedInstrument (app w);
                  isLoading := false; error := None |};
        trace := (trace w ++ [ EFetch (request_url sel); ECreateObjectURL b;
                               EAppendChild a; EClick a; ERemove a;
                               ERevokeObjectURL (object_url env b) ])%list |}).
Proof.
  intros Hf Hok Hb Hdom.
  unfold_monad. cbn. rewrite Hf. cbn. rewrite Hok. cbn. rewrite Hb. cbn.
  rewrite !Hdom. cbn. repeat rewrite <- app_assoc. reflexivity.
Qed.

(** C2. On a successful response (the fetch resolves with an [ok] response
    whose body is read as a blob, and no browser call throws) the run saves
    exactly one file, the blob of the response body, and its name is the
    selected instrument followed by [_pattern.mid]. *)
Theorem saved_file_is_named_after_instrument
  (env : Env) (sel : string) (w : World) (r : Response) (b : Blob) :
  fetch env (request_url sel) = Resolved r ->
  ok r = true ->
  blob r = Resolved b ->
  (forall c, dom_throws env c = None) ->
  saved_files (trace (snd (handleGenerateMidi env sel w)))
  = (saved_files (trace w)
     ++ [((sel ++ "_pattern.mid")%string, object_url env b)])%list.
Proof.
  intros Hf Hok Hb Hdom.
  rewrite (success_run env sel w r b Hf Hok Hb Hdom). cbn [snd trace].
  rewrite saved_files_app. reflexivity.
Qed.

Lemma saved_file_witness :
  saved_files (trace (snd (handleGenerateMidi env_success "kick"
                             {| app := initial_state; trace := [] |})))
  = [("kick_pattern.mid", "blob:http://localhost:3000/0")].
Proof.
  apply (saved_file_is_named_after_instrument env_success "kick"
           {| app := initial_state; trace := [] |} midi_response
           {| blob_bytes := [Byte.x4d; Byte.x54; Byte.x68; Byte.x64];
              blob_type := "audio/midi" |});
    reflexivity.
Defined.

(** Whatever happens, no run saves a file under another name. *)
Lemma saved_files_only_pattern (env : Env) (sel : string) (st : AppState)
  (f : string * string) :
  In f (saved_files (trace (snd (handleGenerateMidi env sel
                                   {| app := st; trace := [] |})))) ->
  fst f = sel ++ "_pattern.mid".
Proof.
  run; cbn; intros H; repeat destruct H as [H|H]; try contradiction;
    subst f; reflexivity.
Qed.

(** *** The failure path *)






(** *** Loading flag and error cell after a run *)

Lemma or_else_string_truthy (a b : string) :
  truthy_string b = true -> truthy_string (or_else_string a b) = true.
Proof.
  intros Hb. unfold or_else_string.
  destruct (truthy_string a) eqn:Ha; assumption.
Qed.

(** When a [try]/[catch]/[finally] statement is left at all, the [finally]
    block ran last. *)
Lemma finally_runs_last {A} (body : M A) (handler : exn -> M A)
  (final : M unit) (w : World) :
  fst (try_catch_finally body handler final w) <> Suspended ->
  exists w1, snd (try_catch_finally body handler final w) = snd (final w1).
Proof.
  unfold try_catch_finally.
  destruct (body w) as [[a|e|] w1]; cbn.
  - intros _. exists w1. destruct (final w1) as [[u|e|] w2]; reflexivity.
  - destruct (handler e w1) as [[a|e'|] w2]; cbn.
    + intros _. exists w2. destruct (final w2) as [[u|e'|] w3]; reflexivity.
    + intros _. exists w2. destruct (final w2) as [[u|e''|] w3]; reflexivity.
    + intros H. contradiction.
  - intros H. contradiction.
Qed.

(** The handler catches everything: it returns or stays suspended. *)
Lemma handler_never_throws (env : Env) (sel : string) (w : World) :
  fst (handleGenerateMidi env sel w) = Done tt
  \/ fst (handleGenerateMidi env sel w) = Suspended.
Proof. run; auto. Qed.

(** The run is suspended for ever exactly when a promise it awaits never
    settles. *)
Lemma handler_suspended_iff (env : Env) (sel : string) (w : World) :
  fst (handleGenerateMidi env sel w) = Suspended <-> awaits_for_ever env sel = true.
Proof.
  unfold awaits_for_ever. run; split; intros H; try discriminate; reflexivity.
Qed.

(** C10. After every run of the handler that terminates, whichever way the
    request went, [isLoading] is false; and when the request succeeded (the
    run took the success path) the error cell is null. *)
Theorem handler_leaves_loading_false (env : Env) (sel : string) (w : World) :
  fst (handleGenerateMidi env sel w) <> Suspended ->
  isLoading (app (snd (handleGenerateMidi env sel w))) = false
  /\ (request_succeeds env sel = true ->
      error (app (snd (handleGenerateMidi env sel w))) = None).
Proof.
  intros Hterm. split.
  - unfold handleGenerateMidi, bind, setIsLoading, setError, modify in *.
    cbn in *.
    destruct (finally_runs_last _ _ _ _ Hterm) as [w1 Hw1].
    rewrite Hw1. reflexivity.
  - intros Hok.
    destruct (request_succeeds_inv env sel Hok) as [r [b [Hf [Hr [Hb Hdom]]]]].
    rewrite (success_run env sel w r b Hf Hr Hb Hdom). reflexivity.
Qed.

Lemma handler_witness_success :
  isLoading (app (snd (handleGenerateMidi env_success "pad"
                         {| app := {| selectedInstrument := "pad"; isLoading := false;
                                      error := Some "Failed to fetch" |};
                            trace := [] |}))) = false
  /\ (request_succeeds env_success "pad" = true ->
      error (app (snd (handleGenerateMidi env_success "pad"
                         {| app := {| selectedInstrument := "pad"; isLoading := false;
                                      error := Some "Failed to fetch" |};
                            trace := [] |}))) = None).
Proof.
  apply (handler_leaves_loading_false env_success "pad").
  cbn. discriminate.
Defined.

(** The other two ways a run ends: a server error and a rejected fetch. *)
Example handler_run_server_error :
  state_after (handleGenerateMidi (env_detail 500 "GenerationError: empty sequence") "pad")
              initial_state
  = {| selectedInstrument := "lead"; isLoading := false;
       error := Some "GenerationError: empty sequence" |}.
Proof. reflexivity. Qed.

Example handler_run_offline :
  state_after (handleGenerateMidi env_offline "pad") initial_state
  = {| selectedInstrument := "lead"; isLoading := false;
       error := Some "Failed to fetch" |}.
Proof. reflexivity. Qed.

(** On every terminated run that did not take the success path the error
    cell holds a non-empty message. *)
Lemma handler_failure_sets_error (env : Env) (sel : string) (w : World) :
  fst (handleGenerateMidi env sel w) <> Suspended ->
  request_succeeds env sel = false ->
  exists msg, error (app (snd (handleGenerateMidi env sel w))) = Some msg
              /\ truthy_string msg = true.
Proof.
  unfold request_succeeds. run;
    intros Hterm Hfail; try contradiction; try discriminate;
    try match goal with
        | H : negb (ok ?r) = false |- _ =>
            destruct (ok r); cbn in *; discriminate
        end;
    (eexists; split; [reflexivity|apply or_else_string_truthy; reflexivity]).
Qed.

End ClientFacts.

(* ===================================================================== *)
(** ** Facts about the modelled backend                                   *)
(* ===================================================================== *)

Module BackendFacts.
Import Endpoint Backend.

(** *** Registry *)

Lemma resolve_known (table : list InstrumentProfile) (n : string) :
  In n (map name table) ->
  exists p, resolve table n = inr p /\ In p table /\ name p = n.
Proof.
  intros Hin. unfold resolve.
  destruct (find (fun p => String.eqb (name p) n) table) as [p|] eqn:Hfind.
  - apply find_some in Hfind. destruct Hfind as [Hp Heq].
    apply String.eqb_eq in Heq. exists p. auto.
  - apply in_map_iff in Hin. destruct Hin as [q [Hq Hqin]].
    apply (find_none _ _ Hfind) in Hqin. cbn in Hqin.
    rewrite Hq, String.eqb_refl in Hqin. discriminate.
Qed.

Lemma resolve_unknown (table : list InstrumentProfile) (n : string) :
  ~ In n (map name table) -> resolve table n = inl UnknownInstrument.
Proof.
  intros Hnot. unfold resolve.
  destruct (find (fun p => String.eqb (name p) n) table) as [p|] eqn:Hfind;
    [|reflexivity].
  apply find_some in Hfind. destruct Hfind as [Hp Heq].
  apply String.eqb_eq in Heq. exfalso. apply Hnot.
  rewrite <- Heq. apply in_map. exact Hp.
Qed.

Example resolve_kick :
  resolve sample_table "kick" = inr (sample_profile "kick" 0 9).
Proof. reflexivity. Qed.

Example resolve_trumpet :
  resolve sample_table "trumpet" = inl UnknownInstrument.
Proof. reflexivity. Qed.

Example resolve_is_case_sensitive :
  resolve sample_table "Kick" = inl UnknownInstrument.
Proof. reflexivity. Qed.

(** *** Pattern Generator *)

Section Generator.

Variable RandomSource : Type.
Variable draw : RandomSource -> N * RandomSource.
Variable malformed : NoteSequence -> bool.
Variable postprocess : InstrumentProfile -> NoteSequence -> NoteSequence.

(** A call with an explicit seed does not touch the random source. *)
Lemma explicit_seed_keeps_source (m : GenerativeModel)
  (profile : InstrumentProfile) (s : N) (rs : RandomSource) :
  snd (generate RandomSource draw malformed postprocess m profile (Some s) rs)
  = rs.
Proof.
  unfold generate, derive_seed.
  destruct (is_empty _ || malformed _); reflexivity.
Qed.

(** C7. When the model returns a sequence with zero notes, or a malformed
    one, [generate] fails with [GenerationError]: it returns no sequence,
    so nothing is left to encode. *)
Theorem empty_sequence_is_a_generation_error (m : GenerativeModel)
  (profile : InstrumentProfile) (seed : option N) (rs : RandomSource) :
  notes (sample_and_decode m (decoding_params profile)
           (fst (derive_seed RandomSource draw seed rs))) = []
  \/ malformed (sample_and_decode m (decoding_params profile)
                  (fst (derive_seed RandomSource draw seed rs))) = true ->
  fst (generate RandomSource draw malformed postprocess m profile seed rs)
  = inl GenerationError.
Proof.
  unfold generate, is_empty.
  destruct (derive_seed RandomSource draw seed rs) as [s rs'] eqn:Hseed.
  cbn [fst]. intros [Hempty|Hbad].
  - rewrite Hempty. reflexivity.
  - rewrite Hbad, orb_true_r. reflexivity.
Qed.

End Generator.

Lemma empty_sequence_witness :
  fst (generate N counter_draw (fun _ => false) (fun _ s => s)
         silent_model (sample_profile "kick" 0 9) (Some 42%N) 0%N)
  = inl GenerationError.
Proof.
  apply (empty_sequence_is_a_generation_error N counter_draw (fun _ => false)
           (fun _ s => s) silent_model (sample_profile "kick" 0 9) (Some 42%N) 0%N).
  left. reflexivity.
Defined.

(** Without an explicit seed the result follows the random source. *)
Example drawn_seed_depends_on_source :
  fst (generate N counter_draw (fun _ => false) (fun _ s => s)
         echo_model (sample_profile "kick" 0 9) None 36%N)
  <> fst (generate N counter_draw (fun _ => false) (fun _ s => s)
            echo_model (sample_profile "kick" 0 9) None 38%N).
Proof. cbn. discriminate. Qed.

Example explicit_seed_run :
  fst (generate N counter_draw (fun _ => false) (fun _ s => s)
         echo_model (sample_profile "kick" 0 9) (Some 36%N) 7%N)
  = inr {| notes := [ {| pitch := 36; velocity := 100;
                         start_time := 0; end_time := 1 # 4 |} ];
           tempo := 120 # 1; total_duration := 1 # 4 |}.
Proof. reflexivity. Qed.

End BackendFacts.

(* ===================================================================== *)
(** ** Further facts about the handler and the page                       *)
(* ===================================================================== *)

Module ClientCoverage.
Import Client Endpoint ClientFacts.

(** X1. The handler never rejects: a run returns normally, unless one of
    the promises it awaits never settles, in which case it stays
    suspended. *)
Theorem handler_returns_unless_pending (env : Env) (sel : string) (w : World) :
  fst (handleGenerateMidi env sel w)
  = if awaits_for_ever env sel then Suspended else Done tt.
Proof.
  unfold awaits_for_ever.
  destruct (fetch env (request_url sel)) as [|e|r] eqn:Hf.
  - unfold_monad. cbn. rewrite Hf. reflexivity.
  - unfold_monad. cbn. rewrite Hf. reflexivity.
  - destruct (ok r) eqn:Hok.
    + unfold_monad. cbn. rewrite Hf. cbn. rewrite Hok. cbn.
      repeat next_case; reflexivity.
    + unfold_monad. cbn. rewrite Hf. cbn. rewrite Hok. cbn.
      repeat next_case; reflexivity.
Qed.

Lemma console_errors_app (t u : list effect) :
  console_errors (t ++ u) = (console_errors t ++ console_errors u)%list.
Proof.
  induction t as [|e t IH]; [reflexivity|].
  destruct e; cbn; rewrite IH; reflexivity.
Qed.

Lemma revoked_urls_app (t u : list effect) :
  revoked_urls (t ++ u) = (revoked_urls t ++ revoked_urls u)%list.
Proof.
  induction t as [|e t IH]; [reflexivity|].
  destruct e; cbn; rewrite IH; reflexivity.
Qed.

Lemma created_urls_app (t u : list effect) :
  created_urls (t ++ u) = (created_urls t ++ created_urls u)%list.
Proof.
  induction t as [|e t IH]; [reflexivity|].
  destruct e; cbn; rewrite IH; reflexivity.
Qed.

Lemma status_line_truthy (n : N) :
  or_else_string ("HTTP error! Status: " ++ string_of_N n)
                 "An unknown error occurred."
  = "HTTP error! Status: " ++ string_of_N n.
Proof. reflexivity. Qed.

Lemma rejected_fetch_run (env : Env) (sel : string) (w : World) (e : exn) :
  fetch env (request_url sel) = Rejected e ->
  handleGenerateMidi env sel w = (Done tt, failed_world w sel e).
Proof.
  intros Hf. unfold_monad. cbn. rewrite Hf. cbn.
  unfold failed_world. repeat rewrite <- app_assoc. reflexivity.
Qed.

Lemma rejected_json_run (env : Env) (sel : string) (w : World)
  (r : Response) (e : exn) :
  fetch env (request_url sel) = Resolved r ->
  ok r = false ->
  json r = Rejected e ->
  handleGenerateMidi env sel w = (Done tt, failed_world w sel e).
Proof.
  intros Hf Hok Hj. unfold_monad. cbn. rewrite Hf. cbn. rewrite Hok. cbn.
  rewrite Hj. cbn.
  unfold failed_world. repeat rewrite <- app_assoc. reflexivity.
Qed.

Lemma rejected_blob_run (env : Env) (sel : string) (w : World)
  (r : Response) (e : exn) :
  fetch env (request_url sel) = Resolved r ->
  ok r = true ->
  blob r = Rejected e ->
  handleGenerateMidi env sel w = (Done tt, failed_world w sel e).
Proof.
  intros Hf Hok Hb. unfold_monad. cbn. rewrite Hf. cbn. rewrite Hok. cbn.
  rewrite Hb. cbn.
  unfold failed_world. repeat rewrite <- app_assoc. reflexivity.
Qed.

(** The run on a failure response whose JSON body is [body]: what is thrown
    inside the [if (!response.ok)] block. *)
Lemma failure_body_run (env : Env) (sel : string) (w : World)
  (r : Response) (body : jsval) (e : exn) :
  fetch env (request_url sel) = Resolved r ->
  ok r = false ->
  json r = Resolved body ->
  match get_property (type_error env) body "detail" with
  | inl te => e = te
  | inr d =>
      match new_Error env
              (or_else d (VStr ("HTTP error! Status: "
                                ++ string_of_N (status r)))) with
      | inl te => e = te
      | inr err => e = err
      end
  end ->
  handleGenerateMidi env sel w = (Done tt, failed_world w sel e).
Proof.
  intros Hf Hok Hj He. unfold_monad. cbn. rewrite Hf. cbn. rewrite Hok. cbn.
  rewrite Hj. cbn.
  destruct (get_property (type_error env) body "detail") as [te|d]; cbn.
  - subst e. unfold failed_world. repeat rewrite <- app_assoc. reflexivity.
  - destruct (new_Error env _) as [te|err]; cbn; subst e;
      unfold failed_world; repeat rewrite <- app_assoc; reflexivity.
Qed.

(** X2. When [fetch] rejects (the server cannot be reached), when the body
    of a failure response is not JSON, or when the body of a successful
    response cannot be read, the run ends with the message of that
    exception as the error, or [An unknown error occurred.] when the
    message is empty; it is logged once and no file is saved. *)
Theorem rejection_message_is_shown
  (env : Env) (sel : string) (w : World) (e : exn) :
  fetch env (request_url sel) = Rejected e
  \/ (exists r, fetch env (request_url sel) = Resolved r
                /\ ((ok r = false /\ json r = Rejected e)
                    \/ (ok r = true /\ blob r = Rejected e))) ->
  app (snd (handleGenerateMidi env sel w))
  = {| selectedInstrument := selectedInstrument (app w);
       isLoading := false;
       error := Some (if truthy_string (message e) then message e
                      else "An unknown error occurred.") |}
  /\ console_errors (trace (snd (handleGenerateMidi env sel w)))
     = (console_errors (trace w) ++ [e])%list
  /\ saved_files (trace (snd (handleGenerateMidi env sel w)))
     = saved_files (trace w).
Proof.
  intros H.
  assert (Hrun : handleGenerateMidi env sel w = (Done tt, failed_world w sel e)).
  { destruct H as [Hf | [r [Hf [[Hok Hj] | [Hok Hb]]]]].
    - apply rejected_fetch_run; assumption.
    - eapply rejected_json_run; eassumption.
    - eapply rejected_blob_run; eassumption. }
  rewrite Hrun. cbn [snd failed_world app trace].
  split; [reflexivity|]. split.
  - rewrite console_errors_app. reflexivity.
  - rewrite saved_files_app. cbn. apply app_nil_r.
Qed.

Lemma rejection_message_witness :
  app (snd (handleGenerateMidi env_offline "snare"
              {| app := initial_state; trace := [] |}))
  = {| selectedInstrument := "lead"; isLoading := false;
       error := Some "Failed to fetch" |}
  /\ console_errors (trace (snd (handleGenerateMidi env_offline "snare"
                                   {| app := initial_state; trace := [] |})))
     = [Error "Failed to fetch"]
  /\ saved_files (trace (snd (handleGenerateMidi env_offline "snare"
                                 {| app := initial_state; trace := [] |})))
     = [].
Proof.
  apply (rejection_message_is_shown env_offline "snare"
           {| app := initial_state; trace := [] |} (Error "Failed to fetch")).
  left. reflexivity.
Defined.

(** X3. On a failure response whose JSON body has no [detail], or a falsy
    one (null, false, zero, the empty string), the error is the status
    line [HTTP error! Status: ] followed by the status code. *)
Theorem falsy_detail_shows_status
  (env : Env) (sel : string) (w : World) (r : Response) (body d : jsval) :
  fetch env (request_url sel) = Resolved r ->
  ok r = false ->
  json r = Resolved body ->
  get_property (type_error env) body "detail" = inr d ->
  truthy d = false ->
  error (app (snd (handleGenerateMidi env sel w)))
  = Some ("HTTP error! Status: " ++ string_of_N (status r)).
Proof.
  intros Hf Hok Hj Hd Hfalsy.
  rewrite (failure_body_run env sel w r body
             (Error ("HTTP error! Status: " ++ string_of_N (status r)))
             Hf Hok Hj).
  - cbn [snd failed_world app error message].
    rewrite status_line_truthy. reflexivity.
  - rewrite Hd. unfold or_else. rewrite Hfalsy. reflexivity.
Qed.

Lemma falsy_detail_witness :
  error (app (snd (handleGenerateMidi
                     (env_body 404 (VObj [("message", VStr "Not Found")]))
                     "clap" {| app := initial_state; trace := [] |})))
  = Some "HTTP error! Status: 404".
Proof.
  apply (falsy_detail_shows_status
           (env_body 404 (VObj [("message", VStr "Not Found")])) "clap"
           {| app := initial_state; trace := [] |}
           {| ok := false; status := 404;
              json := Resolved (VObj [("message", VStr "Not Found")]);
              blob := Pending |}
           (VObj [("message", VStr "Not Found")]) VUndefined);
    reflexivity.
Defined.

(** X4. A failure response whose JSON body is [null] never gets as far as
    the status line: reading [detail] throws, and the error is the message
    of the engine's TypeError (or the generic text when that is empty). *)
Theorem null_body_shows_type_error
  (env : Env) (sel : string) (w : World) (r : Response) :
  fetch env (request_url sel) = Resolved r ->
  ok r = false ->
  json r = Resolved VNull ->
  error (app (snd (handleGenerateMidi env sel w)))
  = Some (if truthy_string (message (type_error env))
          then message (type_error env)
          else "An unknown error occurred.").
Proof.
  intros Hf Hok Hj.
  rewrite (failure_body_run env sel w r VNull (type_error env) Hf Hok Hj);
    reflexivity.
Qed.

Lemma null_body_witness :
  error (app (snd (handleGenerateMidi (env_body 502 VNull) "keys"
                     {| app := initial_state; trace := [] |})))
  = Some "Cannot read properties of null (reading 'detail')".
Proof.
  apply (null_body_shows_type_error (env_body 502 VNull) "keys"
           {| app := initial_state; trace := [] |}
           {| ok := false; status := 502;
              json := Resolved VNull; blob := Pending |});
    reflexivity.
Defined.

(** X5. A truthy [detail] that is not a string (a list of validation
    errors, say) is shown as the engine's string conversion of it, not as
    the status line; when the conversion is the empty string, as for an
    empty array, the generic text is shown. *)
Theorem structured_detail_is_stringified
  (env : Env) (sel : string) (w : World) (r : Response)
  (body d : jsval) (text : string) :
  fetch env (request_url sel) = Resolved r ->
  ok r = false ->
  json r = Resolved body ->
  get_property (type_error env) body "detail" = inr d ->
  truthy d = true ->
  (forall s, d <> VStr s) ->
  ToString_other env d = inr text ->
  error (app (snd (handleGenerateMidi env sel w)))
  = Some (if truthy_string text then text else "An unknown error occurred.").
Proof.
  intros Hf Hok Hj Hd Htruthy Hnot Htext.
  rewrite (failure_body_run env sel w r body (Error text) Hf Hok Hj).
  - reflexivity.
  - rewrite Hd. unfold or_else. rewrite Htruthy.
    unfold new_Error. rewrite Htext.
    destruct d; try reflexivity. exfalso. eapply Hnot. reflexivity.
Qed.

Lemma structured_detail_witness :
  error (app (snd (handleGenerateMidi
                     (env_body 422 (VObj [("detail", VArr [VObj []])]))
                     "pad" {| app := initial_state; trace := [] |})))
  = Some "[object Object]".
Proof.
  apply (structured_detail_is_stringified
           (env_body 422 (VObj [("detail", VArr [VObj []])])) "pad"
           {| app := initial_state; trace := [] |}
           {| ok := false; status := 422;
              json := Resolved (VObj [("detail", VArr [VObj []])]);
              blob := Pending |}
           (VObj [("detail", VArr [VObj []])]) (VArr [VObj []])
           "[object Object]");
    try reflexivity.
  intros s H. discriminate H.
Defined.

(** X6. A run saves at most one file, and saves one only when [fetch]
    resolved with an [ok] response whose body was read: nothing is ever
    saved for a failure response or a failed request. *)
Theorem file_saved_only_for_ok_response
  (env : Env) (sel : string) (st : AppState) :
  saved_files (trace (snd (handleGenerateMidi env sel
                             {| app := st; trace := [] |}))) = []
  \/ exists r b,
       fetch env (request_url sel) = Resolved r
       /\ ok r = true
       /\ blob r = Resolved b
       /\ saved_files (trace (snd (handleGenerateMidi env sel
                                     {| app := st; trace := [] |})))
          = [((sel ++ "_pattern.mid")%string, object_url env b)].
Proof.
  destruct (fetch env (request_url sel)) as [|e|r] eqn:Hf.
  - left. unfold_monad. cbn. rewrite Hf. reflexivity.
  - left. unfold_monad. cbn. rewrite Hf. reflexivity.
  - destruct (ok r) eqn:Hok.
    + destruct (blob r) as [|e|b] eqn:Hb.
      * left. unfold_monad. cbn. rewrite Hf. cbn. rewrite Hok. cbn.
        rewrite Hb. reflexivity.
      * left. unfold_monad. cbn. rewrite Hf. cbn. rewrite Hok. cbn.
        rewrite Hb. reflexivity.
      * unfold_monad. cbn. rewrite Hf. cbn. rewrite Hok. cbn.
        rewrite Hb. cbn.
        repeat next_case;
          first [ left; reflexivity
                | right; exists r, b; repeat split; solve [assumption | reflexivity] ].
    + left. unfold_monad. cbn. rewrite Hf. cbn. rewrite Hok. cbn.
      repeat next_case; reflexivity.
Qed.

(** X7. A run starts from a clean slate: the state it ends in, suspended or
    not, does not depend on the loading flag or the error left by earlier
    runs, so a stale error never outlives a new click. *)
Theorem run_forgets_earlier_outcome
  (env : Env) (sel : string) (w1 w2 : World) :
  selectedInstrument (app w1) = selectedInstrument (app w2) ->
  app (snd (handleGenerateMidi env sel w1))
  = app (snd (handleGenerateMidi env sel w2)).
Proof.
  intros Hsel. unfold_monad. cbn. rewrite Hsel.
  repeat next_case; reflexivity.
Qed.

Lemma run_forgets_witness :
  app (snd (handleGenerateMidi env_success "kick"
              {| app := {| selectedInstrument := "kick"; isLoading := false;
                           error := Some "Failed to fetch" |};
                 trace := [] |}))
  = app (snd (handleGenerateMidi env_success "kick"
                {| app := {| selectedInstrument := "kick"; isLoading := true;
                             error := None |};
                   trace := [EFetch "http://127.0.0.1:8000/"] |})).
Proof.
  apply (run_forgets_earlier_outcome env_success "kick").
  reflexivity.
Defined.

(** X8. While a promise the run awaits has not settled, the page is
    loading and shows no error: the button is disabled and reads
    [Generating...], and nothing has been saved or reported. *)
Theorem pending_run_shows_loading (env : Env) (sel : string) (w : World) :
  awaits_for_ever env sel = true ->
  app (snd (handleGenerateMidi env sel w))
  = {| selectedInstrument := selectedInstrument (app w);
       isLoading := true; error := None |}
  /\ button_disabled (render (app (snd (handleGenerateMidi env sel w)))) = true
  /\ button_text (render (app (snd (handleGenerateMidi env sel w))))
     = "Generating..."
  /\ error_paragraph (render (app (snd (handleGenerateMidi env sel w)))) = None
  /\ trace (snd (handleGenerateMidi env sel w))
     = (trace w ++ [EFetch (request_url sel)])%list.
Proof.
  unfold awaits_for_ever.
  destruct (fetch env (request_url sel)) as [|e|r] eqn:Hf; try discriminate.
  - intros _. unfold_monad. cbn. rewrite Hf. cbn. repeat split; reflexivity.
  - destruct (ok r) eqn:Hok.
    + destruct (blob r) as [|e|b] eqn:Hb; try discriminate.
      intros _. unfold_monad. cbn. rewrite Hf. cbn. rewrite Hok. cbn.
      rewrite Hb. cbn. repeat split; reflexivity.
    + destruct (json r) as [|e|b] eqn:Hj; try discriminate.
      intros _. unfold_monad. cbn. rewrite Hf. cbn. rewrite Hok. cbn.
      rewrite Hj. cbn. repeat split; reflexivity.
Qed.

Lemma pending_run_witness :
  app (snd (handleGenerateMidi env_hanging "drums"
              {| app := initial_state; trace := [] |}))
  = {| selectedInstrument := "lead"; isLoading := true; error := None |}
  /\ button_disabled (render (app (snd (handleGenerateMidi env_hanging "drums"
                                          {| app := initial_state; trace := [] |}))))
     = true
  /\ button_text (render (app (snd (handleGenerateMidi env_hanging "drums"
                                      {| app := initial_state; trace := [] |}))))
     = "Generating..."
  /\ error_paragraph (render (app (snd (handleGenerateMidi env_hanging "drums"
                                          {| app := initial_state; trace := [] |}))))
     = None
  /\ trace (snd (handleGenerateMidi env_hanging "drums"
                   {| app := initial_state; trace := [] |}))
     = [EFetch "http://127.0.0.1:8000/generate-midi?instrument=drums"].
Proof.
  apply (pending_run_shows_loading env_hanging "drums"
           {| app := initial_state; trace := [] |}).
  reflexivity.
Defined.

(** *** The error cell over the life of the page *)

(** Whatever a run does, the error it leaves is null or a non-empty
    string. *)
Lemma run_error_is_null_or_truthy (env : Env) (sel : string) (w : World) :
  match error (app (snd (handleGenerateMidi env sel w))) with
  | Some e => truthy_string e = true
  | None => True
  end.
Proof.
  run; try exact I; apply or_else_string_truthy; reflexivity.
Qed.

Lemma reachable_error_truthy (st : AppState) :
  reachable st ->
  match error st with Some e => truthy_string e = true | None => True end.
Proof.
  induction 1 as [|st st' Hreach IH Hstep].
  - exact I.
  - destruct Hstep as [st o Ho | st env Hen].
    + exact IH.
    + apply run_error_is_null_or_truthy.
Qed.

(** X9. In every state the page can reach, an error that is set is a
    non-empty string, so the red paragraph is rendered for it, with the
    text [Error: ] followed by the error; the [error &&] guard of the
    markup never hides a set error. *)
Theorem reachable_error_is_rendered (st : AppState) (e : string) :
  reachable st ->
  error st = Some e ->
  e <> "" /\ error_paragraph (render st) = Some ("Error: " ++ e).
Proof.
  intros Hreach He.
  pose proof (reachable_error_truthy st Hreach) as Ht.
  rewrite He in Ht. unfold render. cbn. rewrite He, Ht.
  split; [|reflexivity].
  intros ->. discriminate Ht.
Qed.

Lemma reachable_after_offline :
  reachable (state_after (handleGenerateMidi env_offline "lead") initial_state).
Proof.
  apply (reach_step initial_state); [apply reach_initial|].
  apply (ui_click initial_state env_offline). reflexivity.
Qed.

Lemma reachable_error_witness :
  "Failed to fetch" <> ""
  /\ error_paragraph
       (render (state_after (handleGenerateMidi env_offline "lead") initial_state))
     = Some "Error: Failed to fetch".
Proof.
  apply (reachable_error_is_rendered
           (state_after (handleGenerateMidi env_offline "lead") initial_state)
           "Failed to fetch").
  - exact reachable_after_offline.
  - reflexivity.
Defined.

(** X10. The object URL is cleaned up on the success path only: a run
    revokes the URLs it created when every step succeeds, and revokes
    nothing otherwise, also when a browser call throws after the URL was
    created. *)
Theorem object_url_revoked_on_success_only
  (env : Env) (sel : string) (st : AppState) :
  revoked_urls (trace (snd (handleGenerateMidi env sel
                              {| app := st; trace := [] |})))
  = if request_succeeds env sel
    then map (object_url env)
             (created_urls (trace (snd (handleGenerateMidi env sel
                                          {| app := st; trace := [] |}))))
    else [].
Proof.
  unfold request_succeeds.
  destruct (fetch env (request_url sel)) as [|e|r] eqn:Hf.
  - unfold_monad. cbn. rewrite Hf. reflexivity.
  - unfold_monad. cbn. rewrite Hf. reflexivity.
  - destruct (ok r) eqn:Hok.
    + unfold_monad. cbn. rewrite Hf. cbn. rewrite Hok. cbn.
      repeat next_case; reflexivity.
    + unfold_monad. cbn. rewrite Hf. cbn. rewrite Hok. cbn.
      repeat next_case; reflexivity.
Qed.

(** X11. What the page shows is what the console got: a run reports at
    most one exception with [console.error]; when it reports none the error
    cell is null, and when it reports one the error cell holds that
    exception's message, or the generic text when the message is empty. *)
Theorem console_error_matches_error_cell
  (env : Env) (sel : string) (st : AppState) :
  (console_errors (trace (snd (handleGenerateMidi env sel
                                 {| app := st; trace := [] |}))) = []
   /\ error (app (snd (handleGenerateMidi env sel
                         {| app := st; trace := [] |}))) = None)
  \/ exists e,
       console_errors (trace (snd (handleGenerateMidi env sel
                                     {| app := st; trace := [] |}))) = [e]
       /\ error (app (snd (handleGenerateMidi env sel
                             {| app := st; trace := [] |})))
          = Some (if truthy_string (message e) then message e
                  else "An unknown error occurred.").
Proof.
  run;
    first [ left; split; reflexivity
          | right; eexists; split; reflexivity ].
Qed.

(** X12. After a run that terminates, the red paragraph is absent exactly
    when the run took the success path. *)
Theorem error_paragraph_absent_iff_success
  (env : Env) (sel : string) (w : World) :
  fst (handleGenerateMidi env sel w) <> Suspended ->
  (error_paragraph (render (app (snd (handleGenerateMidi env sel w)))) = None
   <-> request_succeeds env sel = true).
Proof.
  intros Hterm. split.
  - intros Hnone.
    destruct (request_succeeds env sel) eqn:Hs; [reflexivity|].
    destruct (handler_failure_sets_error env sel w Hterm Hs) as [msg [Hmsg Ht]].
    unfold render in Hnone. cbn [error_paragraph] in Hnone.
    rewrite Hmsg, Ht in Hnone.
    discriminate Hnone.
  - intros Hs.
    destruct (request_succeeds_inv env sel Hs) as [r [b [Hf [Hr [Hb Hdom]]]]].
    rewrite (success_run env sel w r b Hf Hr Hb Hdom). reflexivity.
Qed.

Lemma error_paragraph_witness :
  error_paragraph
    (render (app (snd (handleGenerateMidi (env_detail 500 "Model failed to load")
                         "pad" {| app := initial_state; trace := [] |})))) = None
  <-> request_succeeds (env_detail 500 "Model failed to load") "pad" = true.
Proof.
  apply (error_paragraph_absent_iff_success
           (env_detail 500 "Model failed to load") "pad"
           {| app := initial_state; trace := [] |}).
  cbn. discriminate.
Defined.

(** *** Option labels *)

Lemma toUpperCase_ascii_lower (c : ascii) :
  andb (Nat.leb 97 (nat_of_ascii c)) (Nat.leb (nat_of_ascii c) 122) = true ->
  nat_of_ascii (toUpperCase_ascii c) = (nat_of_ascii c - 32)%nat.
Proof.
  intros H. unfold toUpperCase_ascii. rewrite H.
  apply nat_ascii_embedding.
  apply andb_prop in H. destruct H as [_ H].
  apply Nat.leb_le in H. lia.
Qed.

(** X13. For names that start with a lower-case ASCII letter, as every
    listed instrument does, the option label is the name with that letter
    in upper case and the rest untouched, and distinct names get distinct
    labels. *)
Theorem option_label_capitalises (s t : string) :
  starts_lowercase s = true ->
  starts_lowercase t = true ->
  (exists c rest,
      s = String c rest
      /\ option_label s = String (ascii_of_nat (nat_of_ascii c - 32)) rest
      /\ (65 <= nat_of_ascii c - 32 <= 90)%nat)
  /\ (option_label s = option_label t -> s = t).
Proof.
  destruct s as [|c s]; [discriminate|].
  destruct t as [|d t]; [intros _; discriminate|].
  cbn [starts_lowercase option_label]. intros Hc Hd. split.
  - exists c, s. split; [reflexivity|].
    unfold toUpperCase_ascii. rewrite Hc. split; [reflexivity|].
    apply andb_prop in Hc. destruct Hc as [H1 H2].
    apply Nat.leb_le in H1. apply Nat.leb_le in H2. lia.
  - intros Heq. injection Heq as Hhead Htail. subst t.
    apply (f_equal nat_of_ascii) in Hhead.
    rewrite (toUpperCase_ascii_lower c Hc), (toUpperCase_ascii_lower d Hd) in Hhead.
    apply andb_prop in Hc. destruct Hc as [Hc _]. apply Nat.leb_le in Hc.
    apply andb_prop in Hd. destruct Hd as [Hd _]. apply Nat.leb_le in Hd.
    assert (Hn : nat_of_ascii c = nat_of_ascii d) by lia.
    apply (f_equal ascii_of_nat) in Hn.
    rewrite !ascii_nat_embedding in Hn. subst d. reflexivity.
Qed.

Lemma option_label_witness :
  (exists c rest,
      "closed_hat" = String c rest
      /\ option_label "closed_hat"
         = String (ascii_of_nat (nat_of_ascii c - 32)) rest
      /\ (65 <= nat_of_ascii c - 32 <= 90)%nat)
  /\ (option_label "closed_hat" = option_label "clap" -> "closed_hat" = "clap").
Proof.
  apply (option_label_capitalises "closed_hat" "clap"); reflexivity.
Defined.

Example option_texts :
  map option_text (select_options (render initial_state))
  = [ "Lead"; "Pluck"; "Keys"; "Pad"; "Drums";
      "Kick"; "Snare"; "Closed_hat"; "Open_hat"; "Clap" ].
Proof. reflexivity. Qed.

End ClientCoverage.
